(** * Acontext CLI: command tracking (client/acontext-cli/main.go)

    A shallow embedding of the tracking code of the [acontext] command-line
    tool: the path resolver [buildCommandPath], the flag normalizer
    [collectFlags], the argument filter [filterArgs], the dispatcher
    [trackCommandAndWait], the two persistent hooks of [rootCmd] and the
    failure branch of [main].

    Strings are [string], slices are lists, [map[string]string] is
    [gmap string string], a [*cobra.Command] that may be nil is
    [option Command].  Code that prints, reads the clock, hands an event to
    the telemetry package or ends the process runs in a state monad over a
    [World] that records those effects in order. *)

From Stdlib Require Import ZArith String Ascii List Lia.
From stdpp Require Import gmap strings list fin_maps.

Local Open Scope string_scope.
Local Open Scope list_scope.
Local Open Scope Z_scope.

(** ** Time

    [time.Time] readings and [time.Duration] values are counted in
    nanoseconds.  A [Duration] is an int64 and [Time.Sub] saturates at its
    bounds. *)

Module Time.

Definition Time := Z.
Definition Duration := Z.

Definition minDuration : Duration := - 2 ^ 63.
Definition maxDuration : Duration := 2 ^ 63 - 1.

Definition Second : Duration := 1000000000.

(** [t.Sub(u)] *)
Definition Sub (t u : Time) : Duration :=
  let d := t - u in
  if d <? minDuration then minDuration
  else if maxDuration <? d then maxDuration
  else d.

End Time.

(** ** The flag layer (github.com/spf13/pflag)

    A flag set keeps its flags by name.  Each flag has a default, a current
    value and the bit [Changed] that [Set] raises.  Values are kept in the
    string form that [flag.Value.String()] returns, so the [value] given to
    [set] stands for the string form of what is stored.  [Visit] calls its
    function on the flags that have been set and on no others. *)

Module Pflag.

Record Flag := mkFlag {
  DefValue : string;
  Value : string;
  Changed : bool
}.

(** Keyed by [flag.Name]: a visited flag is the pair of its name and its
    state. *)
Abbreviation FlagSet := (gmap string Flag).

(** Declaring a flag ([fs.String(name, def, usage)] and the like). *)
Definition declare (name def : string) (fs : FlagSet) : FlagSet :=
  <[name := mkFlag def def false]> fs.

(** [fs.Set(name, value)]: what parsing does for each flag found on the
    command line.  An undeclared name is an error and changes nothing. *)
Definition set (name value : string) (fs : FlagSet) : option FlagSet :=
  match fs !! name with
  | None => None
  | Some f => Some (<[name := mkFlag (DefValue f) value true]> fs)
  end.

(** The flags that have been set, with their names, each once. *)
Definition actual (fs : FlagSet) : list (string * Flag) :=
  map_to_list (filter (fun kv => Changed kv.2 = true) fs).

(** [fs.Visit(fn)]: [fn] is called on the set flags one after the other;
    the state that [fn] updates is threaded through the calls. *)
Definition Visit {A} (fs : FlagSet) (fn : string * Flag -> A -> A) (acc : A) : A :=
  fold_left (fun acc flag => fn flag acc) (actual fs) acc.

End Pflag.

(** ** Contexts (package context)

    A context is the chain of key/value pairs that [context.WithValue]
    builds on top of [context.Background()]; keys are compared with their
    type, values are of type [any]. *)

Module Ctx.

Inductive Key :=
| contextKey (s : string)      (* keys of main's own type [contextKey] *)
| foreignKey (s : string).     (* a key of any other type *)

Inductive Any :=
| AnyTime (t : Time.Time)
| AnyString (s : string).

Definition Key_eqb (a b : Key) : bool :=
  match a, b with
  | contextKey s, contextKey s' => String.eqb s s'
  | foreignKey s, foreignKey s' => String.eqb s s'
  | _, _ => false
  end.

Definition Context := list (Key * Any).

Definition Background : Context := [].

Definition WithValue (parent : Context) (key : Key) (val : Any) : Context :=
  (key, val) :: parent.

(** [ctx.Value(key)]: the innermost binding of [key], nil when absent. *)
Fixpoint Value (ctx : Context) (key : Key) : option Any :=
  match ctx with
  | [] => None
  | (k, v) :: parent => if Key_eqb k key then Some v else Value parent key
  end.

(** The type assertion [x.(time.Time)] in its two-result form. *)
Definition assertTime (x : option Any) : option Time.Time :=
  match x with
  | Some (AnyTime t) => Some t
  | _ => None
  end.

End Ctx.

(** ** Command nodes (github.com/spf13/cobra)

    The fields of [cobra.Command] that the tracking code reads.  The parent
    chain of a node is finite: a command tree has no cycle.  A command that
    is being executed has a context ([context.Background()] when the caller
    gave none), so [cmd.Context()] is always there. *)

#[local] Unset Elimination Schemes.

Inductive Command := mkCommand {
  Use : string;
  Parent : option Command;
  Flags : Pflag.FlagSet;
  Context : Ctx.Context
}.

#[local] Set Elimination Schemes.

(** Induction along the parent chain. *)
Fixpoint Command_ind (P : Command -> Prop)
    (Hroot : forall use fl ctx, P (mkCommand use None fl ctx))
    (Hchild : forall use parent fl ctx,
        P parent -> P (mkCommand use (Some parent) fl ctx))
    (cmd : Command) : P cmd :=
  match cmd with
  | mkCommand use None fl ctx => Hroot use fl ctx
  | mkCommand use (Some parent) fl ctx =>
      Hchild use parent fl ctx (Command_ind P Hroot Hchild parent)
  end.

Definition SetContext (cmd : Command) (ctx : Ctx.Context) : Command :=
  mkCommand (Use cmd) (Parent cmd) (Flags cmd) ctx.

(** [rootCmd], with the flag state and the context it holds at the moment
    it is looked at. *)
Definition rootCmd (fl : Pflag.FlagSet) (ctx : Ctx.Context) : Command :=
  mkCommand "acontext" None fl ctx.

(** ** Pure helpers of main.go *)

Definition startTimeKey : Ctx.Key := Ctx.contextKey "start_time".

(** The loop of [buildCommandPath] (main.go, lines 96-99), entered with a
    non-nil [current]: it ends on a node named "acontext" or when the parent
    is nil, and puts each use-string in front of [parts]. *)
Fixpoint walkUp (current : Command) (parts : list string) : list string :=
  if String.eqb (Use current) "acontext" then parts
  else
    match Parent current with
    | Some parent => walkUp parent (Use current :: parts)
    | None => Use current :: parts
    end.

(** main.go, lines 91-106. *)
Definition buildCommandPath (cmd : option Command) : string :=
  let parts := match cmd with
               | Some current => walkUp current []
               | None => []
               end in
  if Nat.eqb (length parts) 0 then "root"
  else String.concat "." parts.

(** main.go, lines 109-117. *)
Definition collectFlags (cmd : Command) : gmap string string :=
  Pflag.Visit (Flags cmd)
    (fun flag flags => <[flag.1 := Pflag.Value flag.2]> flags) ∅.

(** The test in the loop of [filterArgs]. *)
Definition keepArg (arg : string) : bool :=
  negb (String.eqb arg "--help") && negb (String.eqb arg "-h")
  && negb (String.eqb arg "help").

(** main.go, lines 120-128: [filtered] starts empty and each kept argument
    is appended to it. *)
Definition filterArgs (args : list string) : list string :=
  fold_left
    (fun filtered arg => if keepArg arg then filtered ++ [arg] else filtered)
    args [].

(** ** Effects

    The world outside the pure helpers: the monotonic clock, the scheduler's
    verdict on each bounded wait, and the effects the process has produced so
    far, oldest first. *)

Definition error := string.

(** The arguments of one call of [telemetry.TrackCommandAsync]. *)
Record TrackCall := mkTrackCall {
  callPath : string;
  callArgs : list string;
  callFlags : gmap string string;
  callSuccess : bool;
  callErr : option error;
  callDuration : Time.Duration;
  callVersion : string
}.

Inductive Effect :=
| Stdout (line : string)
| Stderr (text : string)
| TrackCommandAsync (call : TrackCall)
| Waited (ceiling : Time.Duration) (signalled : bool)
| Exit (code : Z).

Record World := mkWorld {
  clock : Time.Time;        (* the last clock reading *)
  ticks : list N;           (* how far the clock moves before each next reading *)
  signals : list bool;      (* per wait: does [done] close before the timer fires *)
  trace : list Effect
}.

Definition M (A : Type) : Type := World -> A * World.

Definition ret {A} (a : A) : M A := fun w => (a, w).

Definition bind {A B} (m : M A) (k : A -> M B) : M B :=
  fun w => let (a, w') := m w in k a w'.

Notation "x <- m ;; k" := (bind m (fun x => k))
  (at level 100, m at next level, right associativity).
Notation "m ;;; k" := (bind m (fun _ => k))
  (at level 100, right associativity).

Definition emit (e : Effect) : M unit :=
  fun w => (tt, mkWorld (clock w) (ticks w) (signals w) (trace w ++ [e])).

(** [time.Now()] *)
Definition timeNow : M Time.Time :=
  fun w =>
    let t := clock w + Z.of_N (hd 0%N (ticks w)) in
    (t, mkWorld t (tl (ticks w)) (signals w) (trace w)).

(** [time.Since(t)], that is [time.Now().Sub(t)] *)
Definition timeSince (t : Time.Time) : M Time.Duration :=
  now <- timeNow ;; ret (Time.Sub now t).

(** Modelled from the spec: [telemetry.TrackCommandAsync] belongs to the
    package internal/telemetry, which is absent.  The dispatcher's step 3
    launches the transmission as an independent unit of work and hands back
    its completion signal; the call is recorded with its arguments. *)
Definition telemetry_TrackCommandAsync (call : TrackCall) : M unit :=
  emit (TrackCommandAsync call).

(** The [select] over [done] and [time.After(ceiling)]: which of the two
    comes first is the scheduler's choice; both branches are empty. *)
Definition selectDoneOrAfter (ceiling : Time.Duration) : M unit :=
  fun w =>
    let signalled := hd false (signals w) in
    (tt, mkWorld (clock w) (ticks w) (tl (signals w))
           (trace w ++ [Waited ceiling signalled])).

Definition Println (line : string) : M unit := emit (Stdout line).
Definition Fprintf_Stderr (text : string) : M unit := emit (Stderr text).
Definition os_Exit (code : Z) : M unit := emit (Exit code).

Definition nl : string := String (ascii_of_nat 10) EmptyString.

(** The telemetry calls among the effects, oldest first. *)
Fixpoint dispatched (tr : list Effect) : list TrackCall :=
  match tr with
  | [] => []
  | TrackCommandAsync call :: tr' => call :: dispatched tr'
  | _ :: tr' => dispatched tr'
  end.

(** ** The dispatcher, the hooks and main *)

Section Tracking.

(** [var version = "dev"], overwritten by the release build. *)
Variable version : string.

(** main.go, lines 41-88.  The callers pass a non-nil [cmd]. *)
Definition trackCommandAndWait (cmd : Command) (args : list string)
    (err : option error) (success : bool) : M unit :=
  if String.eqb version "dev" then ret tt
  else
    duration <-
      (if success then
         startTime <-
           (match Ctx.assertTime (Ctx.Value (Context cmd) startTimeKey) with
            | Some t => ret t
            | None => timeNow
            end) ;;
         timeSince startTime
       else ret 0) ;;
    let commandPath := buildCommandPath (Some cmd) in
    let flags := collectFlags cmd in
    let filteredArgs := filterArgs args in
    telemetry_TrackCommandAsync
      (mkTrackCall commandPath filteredArgs flags success err duration version) ;;;
    selectDoneOrAfter (5 * Time.Second).

(** [rootCmd.PersistentPreRun] (lines 142-146); [cmd.SetContext] updates
    the node, so the updated node is the result. *)
Definition PersistentPreRun (cmd : Command) (args : list string) : M Command :=
  now <- timeNow ;;
  let ctx := Ctx.WithValue (Context cmd) startTimeKey (Ctx.AnyTime now) in
  ret (SetContext cmd ctx).

(** [rootCmd.PersistentPostRunE] (lines 147-152) *)
Definition PersistentPostRunE (cmd : Command) (args : list string) : M (option error) :=
  trackCommandAndWait cmd args None true ;;;
  ret None.

(** The order in which cobra runs a resolved command: the persistent
    pre-run hook, the command's own action, and the persistent post-run
    hook when the action returned no error. *)
Definition runCommand (action : Command -> list string -> M (option error))
    (cmd : Command) (args : list string) : M (option error) :=
  cmd' <- PersistentPreRun cmd args ;;
  r <- action cmd' args ;;
  match r with
  | Some e => ret (Some e)
  | None => PersistentPostRunE cmd' args
  end.

(** What main takes from its surroundings: the logo text, the state of the
    root node when [Execute] has returned, the command tree's [Find], and
    [rootCmd.Execute()] itself. *)
Variable Logo : string.
Variable rootFlags : Pflag.FlagSet.
Variable rootCtx : Ctx.Context.
Variable Find : list string -> option Command.
Variable Execute : M (option error).

(** [os.Args] is the program name followed by [osArgs].  The first
    statement of main: the logo, unless help was asked for. *)
Definition printLogo (osArgs : list string) : M unit :=
  match osArgs with
  | first :: _ =>
      if negb (String.eqb first "--help") && negb (String.eqb first "-h")
      then Println Logo else ret tt
  | [] => ret tt
  end.

(** main.go, lines 23-38. *)
Definition main (osArgs : list string) : M unit :=
  printLogo osArgs ;;;
  cmdErr <- Execute ;;
  match cmdErr with
  | Some e =>
      Fprintf_Stderr ("Error: " ++ e ++ nl)%string ;;;
      let executedCmd := match Find osArgs with
                         | Some found => found
                         | None => rootCmd rootFlags rootCtx
                         end in
      trackCommandAndWait executedCmd osArgs cmdErr false ;;;
      os_Exit 1
  | None => ret tt
  end.

(** Any number of dispatcher calls, one after the other. *)
Fixpoint trackAll (calls : list (Command * list string * option error * bool)) : M unit :=
  match calls with
  | [] => ret tt
  | (cmd, args, err, success) :: rest =>
      trackCommandAndWait cmd args err success ;;;
      trackAll rest
  end.

End Tracking.

(** ** Vocabulary of the claims *)

(** A node followed by its ancestors, the root last. *)
Fixpoint ancestry (cmd : Command) : list Command :=
  cmd :: match Parent cmd with
         | Some parent => ancestry parent
         | None => []
         end.

Fixpoint rootOf (cmd : Command) : Command :=
  match Parent cmd with
  | Some parent => rootOf parent
  | None => cmd
  end.

Definition depth (cmd : Command) : nat := (length (ancestry cmd) - 1)%nat.

(** The node and its ancestors, the root left out. *)
Definition belowRoot (cmd : Command) : list Command := removelast (ancestry cmd).

(** The part of a chain that lies before its first node named "acontext". *)
Fixpoint beforeAcontext (chain : list Command) : list Command :=
  match chain with
  | [] => []
  | c :: rest =>
      if String.eqb (Use c) "acontext" then [] else c :: beforeAcontext rest
  end.

(** Use-strings of a chain, topmost node first. *)
Definition segmentsOf (chain : list Command) : list string := rev (map Use chain).

(** "[path] is a dot-joined string of exactly [d] segments, none of which
    is [rootName]". *)
Definition dotJoined (path : string) (d : nat) (rootName : string) : Prop :=
  exists segs : list string,
    length segs = d /\ path = String.concat "." segs /\
    Forall (fun seg => seg <> rootName) segs.

Definition helpTokens : list string := ["--help"; "-h"; "help"].

(** The argument filter as the specification words it: the list with the
    help tokens removed. *)
Definition withoutHelpTokens (args : list string) : list string :=
  filter (fun arg => arg ∉ helpTokens) args.


(** The event a call hands over, given the duration it computed. *)
Definition callOf (version : string) (cmd : Command) (args : list string)
    (err : option error) (success : bool) (duration : Time.Duration) : TrackCall :=
  mkTrackCall (buildCommandPath (Some cmd)) (filterArgs args) (collectFlags cmd)
    success err duration version.

(** The two effects of a call that is not suppressed. *)
Definition tracked (call : TrackCall) (w : World) : list Effect :=
  [TrackCommandAsync call; Waited (5 * Time.Second) (hd false (signals w))].

(** The duration that goes out with a call's event. *)
Definition durationSent (version : string) (cmd : Command) (args : list string)
    (err : option error) (success : bool) (w : World) : list Time.Duration :=
  let before := length (dispatched (trace w)) in
  let after := dispatched (trace (trackCommandAndWait version cmd args err success w).2) in
  callDuration <$> drop before after.

(** ** Sample trees and worlds *)

(** A tree with a second node named "acontext": acontext > plugin >
    acontext > up. *)
Definition plugin_acontext : Command :=
  mkCommand "acontext" (Some (mkCommand "plugin" (Some (rootCmd ∅ [])) ∅ [])) ∅ [].

Definition plugin_acontext_up : Command :=
  mkCommand "up" (Some plugin_acontext) ∅ [].

(** The chain create > project of the end-to-end scenario, with the flag
    template declared and set. *)
Definition createCmd : Command :=
  mkCommand "create" (Some (rootCmd ∅ [])) ∅ [].

Definition projectCmd : Command :=
  mkCommand "project" (Some createCmd)
    (default ∅ (Pflag.set "template" "python" (Pflag.declare "template" "typescript" ∅)))
    [].

(** The command project with its flag template declared (default
    typescript) and not set. *)
Definition projectDeclared : Command :=
  mkCommand "project" (Some createCmd) (Pflag.declare "template" "typescript" ∅) [].

(** A world whose clock stands at 100 and reads 105, then 112, then 121;
    the first bounded wait is ended by the completion signal. *)
Definition world0 : World := mkWorld 100 [5%N; 7%N; 9%N] [true] [].

(** ** Further vocabulary and the remaining commands *)

(** How many of the arguments are help tokens. *)
Definition helpCount (args : list string) : nat :=
  length (filter (fun arg => arg ∈ helpTokens) args).

(** The use-strings before the first "acontext" of a list of use-strings. *)
Fixpoint usesBeforeAcontext (uses : list string) : list string :=
  match uses with
  | [] => []
  | use :: rest =>
      if String.eqb use "acontext" then [] else use :: usesBeforeAcontext rest
  end.



Section Commands.

Variable version : string.
Variable Logo : string.

(** [rootCmd.Run] (main.go, lines 153-165) *)
Definition rootCmd_Run (cmd : Command) (args : list string) : M unit :=
  Println Logo ;;;
  Println "" ;;;
  Println "Welcome to Acontext CLI!" ;;;
  Println "" ;;;
  Println "Quick Commands:" ;;;
  Println "  acontext create     Create a new project" ;;;
  Println "  acontext docker     Manage Docker services (up/down/status/logs/env)" ;;;
  Println "  acontext version    Show version information" ;;;
  Println "  acontext help       Show help information" ;;;
  Println "" ;;;
  Println "Get started: acontext create".

(** [versionCmd.Run] (lines 177-179); the format ends in a newline, so the
    output is one line. *)
Definition versionCmd_Run (cmd : Command) (args : list string) : M unit :=
  Println ("Acontext CLI version " ++ version)%string.

(** A [Run] function has no result; cobra goes on as after a [RunE] that
    returned nil. *)
Definition asRunE (run : Command -> list string -> M unit)
    (cmd : Command) (args : list string) : M (option error) :=
  run cmd args ;;; ret None.

(** One process run: main, with [Execute] running the command [cmd] on [args]
    through the hooks of [rootCmd]. *)
Definition runProcess (rootFlags : Pflag.FlagSet) (rootCtx : Ctx.Context)
    (Find : list string -> option Command)
    (action : Command -> list string -> M (option error))
    (cmd : Command) (args osArgs : list string) : M unit :=
  main version Logo rootFlags rootCtx Find (runCommand version action cmd args) osArgs.

End Commands.

(** [versionCmd] as [init] hangs it under [rootCmd] (lines 168-172). *)
Definition versionCmd : Command :=
  mkCommand "version" (Some (rootCmd ∅ [])) ∅ [].

(** The lines written to the standard output, oldest first. *)
Fixpoint stdoutLines (tr : list Effect) : list string :=
  match tr with
  | [] => []
  | Stdout line :: tr' => line :: stdoutLines tr'
  | _ :: tr' => stdoutLines tr'
  end.

(** * Properties *)

(** ** Durations *)

Lemma Sub_diag t : Time.Sub t t = 0.
Proof. unfold Time.Sub. rewrite Z.sub_diag. reflexivity. Qed.

Lemma Sub_nonneg t u : u <= t -> 0 <= Time.Sub t u.
Proof.
  intros Htu. unfold Time.Sub, Time.minDuration, Time.maxDuration.
  destruct (Z.ltb_spec (t - u) (- 2 ^ 63)); [lia|].
  destruct (Z.ltb_spec (2 ^ 63 - 1) (t - u)); lia.
Qed.

Lemma Sub_zero_iff t u : Time.Sub t u = 0 <-> t = u.
Proof.
  unfold Time.Sub, Time.minDuration, Time.maxDuration.
  destruct (Z.ltb_spec (t - u) (- 2 ^ 63)); [lia|].
  destruct (Z.ltb_spec (2 ^ 63 - 1) (t - u)); lia.
Qed.

(** ** The argument filter *)

Lemma keepArg_spec arg : keepArg arg = true <-> arg ∉ helpTokens.
Proof.
  unfold keepArg, helpTokens.
  rewrite !andb_true_iff, !negb_true_iff, !String.eqb_neq.
  rewrite !not_elem_of_cons. split.
  - intros [[H1 H2] H3]. repeat split; try assumption. apply not_elem_of_nil.
  - intros (H1 & H2 & H3 & _). auto.
Qed.

Lemma filterArgs_loop args : forall filtered,
  fold_left
    (fun filtered arg => if keepArg arg then filtered ++ [arg] else filtered)
    args filtered
  = filtered ++ withoutHelpTokens args.
Proof.
  unfold withoutHelpTokens.
  induction args as [|arg args IH]; intros filtered; simpl.
  - now rewrite app_nil_r.
  - rewrite IH. destruct (keepArg arg) eqn:Hk.
    + apply keepArg_spec in Hk. rewrite filter_cons_True by exact Hk.
      now rewrite <- app_assoc.
    + rewrite filter_cons_False; [reflexivity|].
      intros Hn. apply keepArg_spec in Hn. congruence.
Qed.

Lemma filterArgs_filter args : filterArgs args = withoutHelpTokens args.
Proof. unfold filterArgs. now rewrite filterArgs_loop. Qed.

(** C7: [filterArgs] returns its argument list with every occurrence of
    "--help", "-h" and "help" removed and the other tokens kept in their
    order: it agrees with the specification's filter on every list, its result
    is a sublist of the input, and a token is in the result exactly when it is
    in the input and is none of the three.  It is a total function without
    effects. *)
Theorem filterArgs_removes_help_tokens (args : list string) :
  filterArgs args = withoutHelpTokens args /\
  filterArgs args `sublist_of` args /\
  (forall arg, arg ∈ filterArgs args <->
     arg ∈ args /\ arg <> "--help" /\ arg <> "-h" /\ arg <> "help").
Proof.
  rewrite filterArgs_filter. unfold withoutHelpTokens.
  split; [reflexivity|]. split.
  - apply sublist_filter.
  - intros arg. rewrite list_elem_of_filter. unfold helpTokens.
    rewrite !not_elem_of_cons. split.
    + intros [(H1 & H2 & H3 & _) Hin]. auto.
    + intros (Hin & H1 & H2 & H3). repeat split; auto. apply not_elem_of_nil.
Qed.

(** C8: filtering is idempotent, and the list
    a, --help, b, -h, help, c is filtered to a, b, c. *)
Theorem filterArgs_idempotent :
  (forall xs, filterArgs (filterArgs xs) = filterArgs xs) /\
  filterArgs ["a"; "--help"; "b"; "-h"; "help"; "c"] = ["a"; "b"; "c"].
Proof.
  split; [|reflexivity].
  intros xs. rewrite !filterArgs_filter. unfold withoutHelpTokens.
  rewrite list_filter_filter.
  apply list_filter_iff. tauto.
Qed.

(** ** The path resolver *)

Lemma walkUp_spec cmd : forall parts,
  walkUp cmd parts = segmentsOf (beforeAcontext (ancestry cmd)) ++ parts.
Proof.
  unfold segmentsOf.
  induction cmd as [use fl ctx | use parent fl ctx IH] using Command_ind;
    intros parts; simpl; destruct (String.eqb use "acontext"); simpl;
    try reflexivity.
  rewrite IH, <- app_assoc. reflexivity.
Qed.

Lemma buildCommandPath_spec cmd :
  buildCommandPath (Some cmd) =
    match segmentsOf (beforeAcontext (ancestry cmd)) with
    | [] => "root"
    | segs => String.concat "." segs
    end.
Proof.
  unfold buildCommandPath. rewrite walkUp_spec, app_nil_r.
  destruct (segmentsOf (beforeAcontext (ancestry cmd))); reflexivity.
Qed.

Lemma beforeAcontext_stop below a above :
  Forall (fun n => Use n <> "acontext") below -> Use a = "acontext" ->
  beforeAcontext (below ++ a :: above) = below.
Proof.
  intros Hbelow Ha. induction Hbelow as [|n below Hn _ IH]; simpl.
  - rewrite Ha. reflexivity.
  - apply String.eqb_neq in Hn. rewrite Hn, IH. reflexivity.
Qed.

Lemma beforeAcontext_all chain :
  Forall (fun n => Use n <> "acontext") chain -> beforeAcontext chain = chain.
Proof.
  intros Hall. induction Hall as [|n chain Hn _ IH]; simpl; [reflexivity|].
  apply String.eqb_neq in Hn. rewrite Hn, IH. reflexivity.
Qed.

Lemma ancestry_nonempty cmd : ancestry cmd <> [].
Proof. destruct cmd as [use [parent|] fl ctx]; discriminate. Qed.

Lemma removelast_cons {A} (x : A) (l : list A) :
  l <> [] -> removelast (x :: l) = x :: removelast l.
Proof. destruct l; [congruence | reflexivity]. Qed.

Lemma ancestry_belowRoot cmd : ancestry cmd = belowRoot cmd ++ [rootOf cmd].
Proof.
  unfold belowRoot.
  induction cmd as [use fl ctx | use parent fl ctx IH] using Command_ind.
  - reflexivity.
  - cbn [ancestry rootOf Parent].
    rewrite removelast_cons by apply ancestry_nonempty.
    rewrite <- app_comm_cons. f_equal. exact IH.
Qed.

Lemma length_belowRoot cmd : length (belowRoot cmd) = depth cmd.
Proof.
  unfold depth. rewrite (ancestry_belowRoot cmd), length_app. simpl. lia.
Qed.

Lemma dotJoined_intro path d rootName segs :
  length segs = d -> path = String.concat "." segs ->
  Forall (fun seg => seg <> rootName) segs -> dotJoined path d rootName.
Proof. intros. exists segs. auto. Qed.

(** C9: on the root node, whatever its flags and context hold,
    [buildCommandPath] returns the sentinel "root". *)
Theorem buildCommandPath_root (fl : Pflag.FlagSet) (ctx : Ctx.Context) :
  buildCommandPath (Some (rootCmd fl ctx)) = "root".
Proof. reflexivity. Qed.

(** C10: the walk ends at the first node whose use-string is "acontext", or
    where the parent is nil, wherever that node sits in the tree.  A node
    named "acontext" yields "root"; every node yields the use-strings found
    before the first "acontext" on its chain; when the chain is [below],
    then a node [a] named "acontext", then [above], the result is built from
    [below] alone, whatever [above] is; and when no node of the chain is
    named "acontext" the walk runs to the nil parent and the path holds
    every use-string of the chain. *)
Theorem buildCommandPath_stops_at_acontext :
  (forall cmd, Use cmd = "acontext" -> buildCommandPath (Some cmd) = "root") /\
  (forall cmd,
     buildCommandPath (Some cmd) =
       match segmentsOf (beforeAcontext (ancestry cmd)) with
       | [] => "root"
       | segs => String.concat "." segs
       end) /\
  (forall cmd below a above,
     ancestry cmd = below ++ a :: above ->
     Use a = "acontext" ->
     Forall (fun n => Use n <> "acontext") below ->
     buildCommandPath (Some cmd) =
       match segmentsOf below with
       | [] => "root"
       | segs => String.concat "." segs
       end) /\
  (forall cmd,
     Forall (fun n => Use n <> "acontext") (ancestry cmd) ->
     buildCommandPath (Some cmd) = String.concat "." (segmentsOf (ancestry cmd))).
Proof.
  split; [|split; [|split]].
  - intros cmd Hcmd. unfold buildCommandPath.
    destruct cmd as [use parent fl ctx]. simpl in *. subst use. reflexivity.
  - apply buildCommandPath_spec.
  - intros cmd below a above Hanc Ha Hbelow.
    rewrite buildCommandPath_spec, Hanc, beforeAcontext_stop by assumption.
    reflexivity.
  - intros cmd Hall.
    rewrite buildCommandPath_spec, beforeAcontext_all by exact Hall.
    pose proof (ancestry_nonempty cmd) as Hne. unfold segmentsOf.
    destruct (ancestry cmd) as [|c chain]; [congruence|]. simpl.
    destruct (rev (map Use chain) ++ [Use c]) eqn:Hsegs; [|reflexivity].
    now apply app_eq_nil in Hsegs as [_ Hsegs].
Qed.

Lemma buildCommandPath_stops_at_acontext_witness :
  buildCommandPath (Some plugin_acontext) = "root" /\
  buildCommandPath (Some plugin_acontext_up) = "up".
Proof.
  destruct buildCommandPath_stops_at_acontext as (Hnamed & _ & Hbelow & _).
  split.
  - apply Hnamed. reflexivity.
  - apply (Hbelow plugin_acontext_up [plugin_acontext_up] plugin_acontext
             [mkCommand "plugin" (Some (rootCmd ∅ [])) ∅ []; rootCmd ∅ []]).
    + reflexivity.
    + reflexivity.
    + repeat constructor. discriminate.
Defined.

(** C4, as the code has it: for a node at depth d >= 1 under the root
    "acontext", when neither the node nor any ancestor below the root is
    itself named "acontext", [buildCommandPath] is the dot-joined string of
    exactly d segments, the use-strings from the root's child down to the
    node, and none of them is the root's name. *)
Theorem buildCommandPath_depth_segments (cmd : Command) (d : nat) :
  Use (rootOf cmd) = "acontext" ->
  Forall (fun n => Use n <> "acontext") (belowRoot cmd) ->
  depth cmd = d -> (1 <= d)%nat ->
  buildCommandPath (Some cmd) = String.concat "." (segmentsOf (belowRoot cmd)) /\
  length (segmentsOf (belowRoot cmd)) = d /\
  Forall (fun seg => seg <> Use (rootOf cmd)) (segmentsOf (belowRoot cmd)) /\
  dotJoined (buildCommandPath (Some cmd)) d (Use (rootOf cmd)).
Proof.
  intros Hroot Hbelow Hdepth Hd.
  assert (Hlen : length (segmentsOf (belowRoot cmd)) = d).
  { unfold segmentsOf. rewrite length_rev, length_map, length_belowRoot.
    exact Hdepth. }
  assert (Hpath : buildCommandPath (Some cmd)
                  = String.concat "." (segmentsOf (belowRoot cmd))).
  { rewrite buildCommandPath_spec, (ancestry_belowRoot cmd).
    rewrite beforeAcontext_stop by assumption.
    destruct (segmentsOf (belowRoot cmd)); [simpl in Hlen; lia | reflexivity]. }
  assert (Hnone : Forall (fun seg => seg <> Use (rootOf cmd))
                    (segmentsOf (belowRoot cmd))).
  { rewrite Hroot. unfold segmentsOf. apply Forall_rev, Forall_fmap.
    exact Hbelow. }
  repeat split; try assumption.
  now apply (dotJoined_intro _ _ _ (segmentsOf (belowRoot cmd))).
Qed.

Lemma buildCommandPath_depth_segments_witness :
  buildCommandPath (Some projectCmd) = "create.project" /\
  dotJoined (buildCommandPath (Some projectCmd)) 2 "acontext".
Proof.
  destruct (buildCommandPath_depth_segments projectCmd 2) as (Hpath & _ & _ & Hjoined).
  - reflexivity.
  - repeat constructor; discriminate.
  - reflexivity.
  - lia.
  - split; [exact Hpath | exact Hjoined].
Defined.

(** C4 as stated fails below a second node named "acontext": the node up
    of acontext > plugin > acontext > up is at depth 3 and its path is the
    single segment "up". *)
Lemma buildCommandPath_depth_segments_counterexample :
  depth plugin_acontext_up = 3%nat /\
  Use (rootOf plugin_acontext_up) = "acontext" /\
  buildCommandPath (Some plugin_acontext_up) = "up" /\
  ~ dotJoined (buildCommandPath (Some plugin_acontext_up))
      (depth plugin_acontext_up) (Use (rootOf plugin_acontext_up)).
Proof.
  repeat split.
  intros (segs & Hlen & Hpath & _).
  destruct segs as [|s1 [|s2 [|s3 [|s4 segs]]]]; try discriminate Hlen.
  change (buildCommandPath (Some plugin_acontext_up)) with "up" in Hpath.
  simpl in Hpath.
  destruct s1 as [|a1 [|a2 [|a3 s1]]]; simpl in Hpath; discriminate Hpath.
Qed.

(** ** The flag normalizer *)






(** ** The dispatcher *)

Lemma dispatched_app tr1 tr2 : dispatched (tr1 ++ tr2) = dispatched tr1 ++ dispatched tr2.
Proof.
  induction tr1 as [|e tr1 IH]; [reflexivity|].
  destruct e; simpl; rewrite IH; reflexivity.
Qed.

Section Dispatcher.

Variable version : string.
Hypothesis released : version <> "dev".

Lemma not_dev : String.eqb version "dev" = false.
Proof. now apply String.eqb_neq. Qed.

Lemma trackCommandAndWait_failure cmd args err w :
  trackCommandAndWait version cmd args err false w =
    (tt, mkWorld (clock w) (ticks w) (tl (signals w))
           (trace w ++ tracked (callOf version cmd args err false 0) w)).
Proof.
  unfold trackCommandAndWait. rewrite not_dev.
  unfold bind, ret, telemetry_TrackCommandAsync, emit, selectDoneOrAfter, tracked.
  simpl. rewrite <- app_assoc. reflexivity.
Qed.

(** The start time was recorded: one clock reading. *)
Lemma trackCommandAndWait_success_recorded cmd args err w t0 :
  Ctx.assertTime (Ctx.Value (Context cmd) startTimeKey) = Some t0 ->
  let now := clock w + Z.of_N (hd 0%N (ticks w)) in
  trackCommandAndWait version cmd args err true w =
    (tt, mkWorld now (tl (ticks w)) (tl (signals w))
           (trace w ++ tracked (callOf version cmd args err true (Time.Sub now t0)) w)).
Proof.
  intros Hstart. unfold trackCommandAndWait. rewrite not_dev, Hstart.
  unfold bind, ret, timeSince, timeNow, bind, ret, telemetry_TrackCommandAsync,
    emit, selectDoneOrAfter, tracked.
  simpl. rewrite <- app_assoc. reflexivity.
Qed.

(** No start time in the context: two clock readings, one after the other. *)
Lemma trackCommandAndWait_success_fallback cmd args err w :
  Ctx.assertTime (Ctx.Value (Context cmd) startTimeKey) = None ->
  let startTime := clock w + Z.of_N (hd 0%N (ticks w)) in
  let now := startTime + Z.of_N (hd 0%N (tl (ticks w))) in
  trackCommandAndWait version cmd args err true w =
    (tt, mkWorld now (tl (tl (ticks w))) (tl (signals w))
           (trace w ++ tracked (callOf version cmd args err true (Time.Sub now startTime)) w)).
Proof.
  intros Hstart. unfold trackCommandAndWait. rewrite not_dev, Hstart.
  unfold bind, ret, timeSince, timeNow, bind, ret, telemetry_TrackCommandAsync,
    emit, selectDoneOrAfter, tracked.
  simpl. rewrite <- app_assoc. reflexivity.
Qed.

End Dispatcher.

(** The scenario create > project of the specification: arguments myapp
    and --help, the flag template set to python. *)
Example callOf_create_project :
  callOf "0.1.0" projectCmd ["myapp"; "--help"] None true 7
  = mkTrackCall "create.project" ["myapp"] {["template" := "python"]} true None 7 "0.1.0".
Proof. vm_compute. reflexivity. Qed.

(** C2: with the development version the dispatcher returns at once for
    every command, argument list, error and success flag: the world it
    returns is the world it was given (no clock reading, no wait, no effect),
    and after any number of calls the telemetry calls on record are those
    that were there before. *)
Theorem trackCommandAndWait_dev_inert :
  (forall cmd args err success w,
     trackCommandAndWait "dev" cmd args err success w = (tt, w)) /\
  (forall calls w,
     trackAll "dev" calls w = (tt, w) /\
     dispatched (trace (trackAll "dev" calls w).2) = dispatched (trace w)).
Proof.
  assert (Hall : forall calls w, trackAll "dev" calls w = (tt, w)).
  { induction calls as [|[[[cmd args] err] success] rest IH]; intros w.
    - reflexivity.
    - simpl. unfold bind. simpl. apply IH. }
  split; [reflexivity|].
  intros calls w. rewrite Hall. split; reflexivity.
Qed.

(** A released build, by contrast, hands over one event per call. *)
Lemma trackCommandAndWait_dispatches_once version cmd args err success w :
  version <> "dev" ->
  exists call,
    dispatched (trace (trackCommandAndWait version cmd args err success w).2)
    = dispatched (trace w) ++ [call] /\
    callSuccess call = success /\ callErr call = err.
Proof.
  intros Hrel. destruct success.
  - destruct (Ctx.assertTime (Ctx.Value (Context cmd) startTimeKey)) as [t0|] eqn:Hstart.
    + rewrite (trackCommandAndWait_success_recorded version Hrel cmd args err w t0 Hstart).
      eexists. simpl. rewrite dispatched_app. simpl. eauto.
    + rewrite (trackCommandAndWait_success_fallback version Hrel cmd args err w Hstart).
      eexists. simpl. rewrite dispatched_app. simpl. eauto.
  - rewrite (trackCommandAndWait_failure version Hrel).
    eexists. simpl. rewrite dispatched_app. simpl. eauto.
Qed.

(** C3, as the code has it: in a released build every call hands over
    exactly one event.  With success=false its duration is the untouched
    zero value and the clock is not read.  With success=true the duration is
    computed: from the recorded start time to the next clock reading, or,
    when the context holds no start time, between two clock readings taken
    one after the other, which is never negative and is zero exactly when the
    clock did not move between them.  The call returns in every case. *)
Theorem trackCommandAndWait_duration (version : string) (cmd : Command)
    (args : list string) (err : option error) (w : World) :
  version <> "dev" ->
  let recorded := Ctx.assertTime (Ctx.Value (Context cmd) startTimeKey) in
  let first := clock w + Z.of_N (hd 0%N (ticks w)) in
  let second := first + Z.of_N (hd 0%N (tl (ticks w))) in
  (durationSent version cmd args err false w = [0] /\
   clock (trackCommandAndWait version cmd args err false w).2 = clock w /\
   ticks (trackCommandAndWait version cmd args err false w).2 = ticks w) /\
  (forall t0, recorded = Some t0 ->
     durationSent version cmd args err true w = [Time.Sub first t0]) /\
  (recorded = None ->
     durationSent version cmd args err true w = [Time.Sub second first] /\
     0 <= Time.Sub second first /\
     (Time.Sub second first = 0 <-> hd 0%N (tl (ticks w)) = 0%N)).
Proof.
  intros Hrel recorded first second. unfold durationSent. split; [|split].
  - rewrite (trackCommandAndWait_failure version Hrel). simpl.
    rewrite dispatched_app, drop_app_length. auto.
  - intros t0 Hstart.
    rewrite (trackCommandAndWait_success_recorded version Hrel cmd args err w t0 Hstart).
    simpl. rewrite dispatched_app, drop_app_length. reflexivity.
  - intros Hstart.
    rewrite (trackCommandAndWait_success_fallback version Hrel cmd args err w Hstart).
    simpl. rewrite dispatched_app, drop_app_length. split; [reflexivity|].
    split.
    + apply Sub_nonneg. unfold second. lia.
    + rewrite Sub_zero_iff. unfold second. lia.
Qed.

Lemma trackCommandAndWait_duration_witness :
  durationSent "0.1.0" projectCmd ["myapp"; "--help"] (Some "disk full") false world0 = [0] /\
  durationSent "0.1.0" projectCmd ["myapp"; "--help"] None true world0 = [7].
Proof.
  destruct (trackCommandAndWait_duration "0.1.0" projectCmd ["myapp"; "--help"]
              (Some "disk full") world0) as ((Hfail & _) & _ & _); [discriminate|].
  destruct (trackCommandAndWait_duration "0.1.0" projectCmd ["myapp"; "--help"]
              None world0) as (_ & _ & Hfallback); [discriminate|].
  destruct Hfallback as (Hsent & _); [reflexivity|].
  split; [exact Hfail | exact Hsent].
Defined.

(** C3 as stated fails in its fallback: with no start time recorded and a
    clock that reads 105 and then 112, the event of a successful run carries
    the duration 7, not zero. *)
Lemma trackCommandAndWait_duration_counterexample :
  Ctx.assertTime (Ctx.Value (Context projectCmd) startTimeKey) = None /\
  durationSent "0.1.0" projectCmd ["myapp"; "--help"] None true world0 = [7] /\
  durationSent "0.1.0" projectCmd ["myapp"; "--help"] None true world0 <> [0].
Proof. repeat split. discriminate. Qed.

(** ** The hooks and the failure branch of main *)

(** What the pre-run hook stores is what the dispatcher later finds. *)
Lemma PersistentPreRun_records cmd args w :
  let (cmd', w') := PersistentPreRun cmd args w in
  Ctx.assertTime (Ctx.Value (Context cmd') startTimeKey) = Some (clock w') /\
  Use cmd' = Use cmd /\ Parent cmd' = Parent cmd /\ Flags cmd' = Flags cmd.
Proof. repeat split. Qed.

(** A run whose action succeeds reports a duration that is not negative. *)
Lemma runCommand_success_duration version action cmd args w :
  version <> "dev" ->
  (forall c a w0, (action c a w0).1 = None /\
                  clock w0 <= clock (action c a w0).2 /\
                  trace (action c a w0).2 = trace w0) ->
  exists call,
    dispatched (trace (runCommand version action cmd args w).2)
    = dispatched (trace w) ++ [call] /\
    callSuccess call = true /\ callErr call = None /\ 0 <= callDuration call.
Proof.
  intros Hrel Haction. unfold runCommand, bind at 1 2.
  pose proof (PersistentPreRun_records cmd args w) as Hpre.
  destruct (PersistentPreRun cmd args w) as [cmd' w'] eqn:Epre.
  destruct Hpre as (Hstart & _).
  destruct (Haction cmd' args w') as (Hnone & Hclock & Htrace).
  destruct (action cmd' args w') as [r w''] eqn:Eact. simpl in *. subst r.
  unfold PersistentPostRunE, bind at 1.
  rewrite (trackCommandAndWait_success_recorded version Hrel cmd' args None w''
             (clock w') Hstart).
  unfold ret. simpl. rewrite dispatched_app, Htrace. simpl.
  assert (Hw' : trace w' = trace w).
  { unfold PersistentPreRun, bind, timeNow, ret in Epre. now inversion Epre. }
  rewrite Hw'. eexists. split; [reflexivity|]. simpl.
  repeat split. apply Sub_nonneg. lia.
Qed.

(** C5: when [Execute] returns an error, main adds to the effects already
    there, in this order: the line "Error: ..." on the standard error
    stream, then what the dispatcher does (nothing in a development build;
    otherwise the telemetry call for the failure event, with the error text
    and the zero duration, followed by the bounded wait, ended by the signal
    or by the ceiling of five seconds), and last the exit with status 1. *)
Theorem main_failure_order (version Logo : string) (rootFlags : Pflag.FlagSet)
    (rootCtx : Ctx.Context) (Find : list string -> option Command)
    (Execute : M (option error)) (osArgs : list string) (w w1 : World) (e : error) :
  Execute (printLogo Logo osArgs w).2 = (Some e, w1) ->
  let executedCmd := match Find osArgs with
                     | Some found => found
                     | None => rootCmd rootFlags rootCtx
                     end in
  let sent := if String.eqb version "dev" then []
              else tracked (callOf version executedCmd osArgs (Some e) false 0) w1 in
  trace (main version Logo rootFlags rootCtx Find Execute osArgs w).2
  = trace w1 ++ [Stderr ("Error: " ++ e ++ nl)%string] ++ sent ++ [Exit 1].
Proof.
  intros Hexec executedCmd sent. unfold main, bind at 1 2.
  destruct (printLogo Logo osArgs w) as [u w0]. simpl in Hexec. rewrite Hexec.
  unfold bind at 1. unfold Fprintf_Stderr, emit at 1.
  unfold bind at 1. fold executedCmd.
  destruct (String.eqb version "dev") eqn:Hv.
  - unfold trackCommandAndWait. rewrite Hv.
    unfold ret, os_Exit, emit, sent. simpl. rewrite <- app_assoc. reflexivity.
  - apply String.eqb_neq in Hv.
    rewrite (trackCommandAndWait_failure version Hv). unfold os_Exit, emit, sent, tracked.
    simpl. rewrite <- !app_assoc. reflexivity.
Qed.

(** The scenario of the specification: the command fails with "disk full". *)
Lemma main_failure_order_witness :
  trace (main "0.1.0" "logo" ∅ [] (fun _ => Some projectCmd)
           (ret (Some "disk full")) ["create"; "project"] world0).2
  = [Stdout "logo"; Stderr ("Error: disk full" ++ nl)%string;
     TrackCommandAsync
       (callOf "0.1.0" projectCmd ["create"; "project"] (Some "disk full") false 0);
     Waited (5 * Time.Second) true; Exit 1].
Proof.
  exact (main_failure_order "0.1.0" "logo" ∅ [] (fun _ => Some projectCmd)
           (ret (Some "disk full")) ["create"; "project"] world0
           (printLogo "logo" ["create"; "project"] world0).2 "disk full" eq_refl).
Defined.

(** * Further properties *)

(** ** More on the argument filter *)

(** X1: filtering distributes over concatenation: the arguments of two
    lists are filtered independently of each other. *)
Theorem filterArgs_app (xs ys : list string) :
  filterArgs (xs ++ ys) = filterArgs xs ++ filterArgs ys.
Proof.
  rewrite !filterArgs_filter. unfold withoutHelpTokens. apply filter_app.
Qed.

(** X2: the filter drops exactly the help tokens: the length of the result
    and the number of help tokens in the input add up to the length of the
    input. *)
Theorem filterArgs_length (args : list string) :
  (length (filterArgs args) + helpCount args = length args)%nat.
Proof.
  rewrite filterArgs_filter. unfold withoutHelpTokens, helpCount.
  induction args as [|arg args IH]; [reflexivity|].
  rewrite !filter_cons.
  destruct (decide (arg ∉ helpTokens)) as [Hout|Hin];
    destruct (decide (arg ∈ helpTokens)) as [Hin'|Hout']; simpl; try lia.
  - contradiction.
  - contradiction.
Qed.

(** X3: the filter returns its input unchanged exactly when the input holds
    no help token. *)
Theorem filterArgs_unchanged_iff (args : list string) :
  filterArgs args = args <-> Forall (fun arg => arg ∉ helpTokens) args.
Proof.
  rewrite filterArgs_filter. unfold withoutHelpTokens. split.
  - intros Heq. apply Forall_forall. intros arg Hin.
    rewrite <- Heq in Hin. apply list_elem_of_filter in Hin. tauto.
  - intros Hall. induction Hall as [|arg args Harg _ IH]; [reflexivity|].
    rewrite filter_cons_True by exact Harg. now rewrite IH.
Qed.

(** X4: only the exact tokens are removed: a help token followed by more
    characters, such as --help=true or -hv, stays where it is. *)
Theorem filterArgs_keeps_longer_tokens (token rest : string) (xs ys : list string) :
  token ∈ helpTokens -> rest <> "" ->
  filterArgs (xs ++ (token ++ rest)%string :: ys)
  = filterArgs xs ++ (token ++ rest)%string :: filterArgs ys.
Proof.
  intros Htoken Hrest.
  rewrite !filterArgs_filter. unfold withoutHelpTokens.
  rewrite filter_app, filter_cons_True; [reflexivity|].
  apply keepArg_spec. destruct rest as [|c rest]; [congruence|].
  unfold helpTokens in Htoken.
  rewrite !elem_of_cons, elem_of_nil in Htoken.
  destruct Htoken as [-> | [-> | [-> | []]]]; unfold keepArg; simpl;
    rewrite ?andb_true_r; reflexivity.
Qed.

Lemma filterArgs_keeps_longer_tokens_witness :
  filterArgs (["myapp"] ++ ("--help" ++ "=true")%string :: ["help"])
  = filterArgs ["myapp"] ++ ("--help" ++ "=true")%string :: filterArgs ["help"].
Proof.
  apply filterArgs_keeps_longer_tokens.
  - unfold helpTokens. apply list_elem_of_here.
  - discriminate.
Defined.

(** ** More on the path resolver *)

Lemma string_app_assoc (a b c : string) :
  ((a ++ b) ++ c = a ++ (b ++ c))%string.
Proof.
  induction a as [|ch a IH]; [reflexivity|].
  change (String ch ((a ++ b) ++ c) = String ch (a ++ (b ++ c)))%string.
  now rewrite IH.
Qed.

Lemma concat_snoc (sep : string) (l : list string) (x : string) :
  l <> [] ->
  String.concat sep (l ++ [x]) = (String.concat sep l ++ sep ++ x)%string.
Proof.
  induction l as [|a [|b l] IH]; intros Hne; [congruence | reflexivity |].
  change (String.concat sep ((a :: b :: l) ++ [x]))
    with (a ++ sep ++ String.concat sep ((b :: l) ++ [x]))%string.
  rewrite IH by discriminate.
  change (String.concat sep (a :: b :: l))
    with (a ++ sep ++ String.concat sep (b :: l))%string.
  now rewrite !string_app_assoc.
Qed.

Lemma beforeAcontext_uses chain :
  map Use (beforeAcontext chain) = usesBeforeAcontext (map Use chain).
Proof.
  induction chain as [|c chain IH]; simpl; [reflexivity|].
  destruct (String.eqb (Use c) "acontext"); simpl; [reflexivity | now rewrite IH].
Qed.

Lemma beforeAcontext_Forall (P : Command -> Prop) chain :
  Forall P chain -> Forall P (beforeAcontext chain).
Proof.
  intros Hall. induction Hall as [|c chain Hc _ IH]; simpl; [constructor|].
  destruct (String.eqb (Use c) "acontext"); constructor; assumption.
Qed.

(** X5: the path is a function of the use-strings on the parent chain and
    of nothing else: two nodes whose chains carry the same use-strings have
    the same path, whatever their flags and contexts hold. *)
Theorem buildCommandPath_uses_only (cmd1 cmd2 : Command) :
  map Use (ancestry cmd1) = map Use (ancestry cmd2) ->
  buildCommandPath (Some cmd1) = buildCommandPath (Some cmd2).
Proof.
  intros Huses. rewrite !buildCommandPath_spec. unfold segmentsOf.
  now rewrite !beforeAcontext_uses, Huses.
Qed.

Lemma buildCommandPath_uses_only_witness :
  buildCommandPath
    (Some (SetContext projectCmd (Ctx.WithValue [] startTimeKey (Ctx.AnyTime 105))))
  = buildCommandPath (Some projectDeclared).
Proof.
  apply buildCommandPath_uses_only. reflexivity.
Defined.

(** X6: the path of a subcommand is the path of its parent, a dot, and its
    own use-string; directly below a node named "acontext" it is the
    use-string alone. *)
Theorem buildCommandPath_child (use : string) (parent : Command)
    (fl : Pflag.FlagSet) (ctx : Ctx.Context) :
  use <> "acontext" ->
  buildCommandPath (Some (mkCommand use (Some parent) fl ctx)) =
    if String.eqb (Use parent) "acontext" then use
    else (buildCommandPath (Some parent) ++ "." ++ use)%string.
Proof.
  intros Huse. apply String.eqb_neq in Huse.
  rewrite !buildCommandPath_spec. unfold segmentsOf.
  cbn [ancestry Parent Use beforeAcontext]. rewrite Huse.
  destruct parent as [puse pparent pfl pctx].
  cbn [ancestry Parent Use beforeAcontext map rev].
  destruct (String.eqb puse "acontext") eqn:Hp; [reflexivity|].
  cbn [map rev Use].
  set (above := rev (map Use (beforeAcontext
                 match pparent with Some p => ancestry p | None => [] end))).
  destruct (above ++ [puse]) as [|s segs] eqn:Hsegs;
    [destruct above; discriminate|].
  change (String.concat "." ((s :: segs) ++ [use])
          = (String.concat "." (s :: segs) ++ "." ++ use)%string).
  apply concat_snoc. discriminate.
Qed.

Lemma buildCommandPath_child_witness :
  buildCommandPath (Some (mkCommand "up" (Some (mkCommand "docker" (Some (rootCmd ∅ [])) ∅ [])) ∅ []))
  = (buildCommandPath (Some (mkCommand "docker" (Some (rootCmd ∅ [])) ∅ [])) ++ "." ++ "up")%string.
Proof.
  apply (buildCommandPath_child "up" (mkCommand "docker" (Some (rootCmd ∅ [])) ∅ []) ∅ []).
  discriminate.
Defined.

(** X7: a nil command is reported as "root", and the path of a command is
    never the empty string when no node on its chain has an empty
    use-string. *)
Theorem buildCommandPath_nonempty :
  buildCommandPath None = "root" /\
  (forall cmd,
     Forall (fun n => Use n <> "") (ancestry cmd) ->
     buildCommandPath (Some cmd) <> "").
Proof.
  split; [reflexivity|]. intros cmd Hall.
  rewrite buildCommandPath_spec. unfold segmentsOf.
  apply (beforeAcontext_Forall (fun n => Use n <> "")) in Hall.
  assert (Hsegs : Forall (fun s => s <> "")
                    (rev (map Use (beforeAcontext (ancestry cmd))))).
  { apply Forall_rev, Forall_fmap. exact Hall. }
  destruct (rev (map Use (beforeAcontext (ancestry cmd)))) as [|s segs];
    [discriminate|].
  inversion Hsegs as [|? ? Hs _]; subst.
  destruct s as [|ch s]; [congruence|].
  destruct segs; discriminate.
Qed.

Lemma buildCommandPath_nonempty_witness :
  buildCommandPath (Some projectCmd) <> "".
Proof.
  apply (proj2 buildCommandPath_nonempty).
  repeat constructor; discriminate.
Defined.

(** ** More on the flag normalizer *)



(** ** More on the dispatcher *)

Lemma Sub_bounds t u : Time.minDuration <= Time.Sub t u <= Time.maxDuration.
Proof.
  unfold Time.Sub, Time.minDuration, Time.maxDuration.
  destruct (Z.ltb_spec (t - u) (- 2 ^ 63)); [lia|].
  destruct (Z.ltb_spec (2 ^ 63 - 1) (t - u)); lia.
Qed.

(** What a call does to the world in a released build. *)
Lemma trackCommandAndWait_released version cmd args err success w :
  version <> "dev" ->
  exists duration w',
    trackCommandAndWait version cmd args err success w = (tt, w') /\
    trace w' = trace w ++ tracked (callOf version cmd args err success duration) w /\
    signals w' = tl (signals w) /\
    clock w <= clock w' /\
    Time.minDuration <= duration <= Time.maxDuration.
Proof.
  intros Hrel. destruct success.
  - destruct (Ctx.assertTime (Ctx.Value (Context cmd) startTimeKey)) as [t0|] eqn:Hstart.
    + rewrite (trackCommandAndWait_success_recorded version Hrel cmd args err w t0 Hstart).
      eexists _, _. split; [reflexivity|]. simpl.
      repeat split; try apply Sub_bounds; lia.
    + rewrite (trackCommandAndWait_success_fallback version Hrel cmd args err w Hstart).
      eexists _, _. split; [reflexivity|]. simpl.
      repeat split; try apply Sub_bounds; lia.
  - rewrite (trackCommandAndWait_failure version Hrel).
    eexists _, _. split; [reflexivity|]. simpl.
    repeat split; try lia; unfold Time.minDuration, Time.maxDuration; lia.
Qed.

(** X9: in a released build a call adds two effects and no other: the
    telemetry call and then one wait with a ceiling of five seconds, for which
    it uses up one verdict of the scheduler.  The event's arguments are a
    sublist of the arguments given and hold no help token; its duration fits
    an int64. *)
Theorem trackCommandAndWait_effects (version : string) (cmd : Command)
    (args : list string) (err : option error) (success : bool) (w : World) :
  version <> "dev" ->
  exists duration,
    let call := callOf version cmd args err success duration in
    let w' := (trackCommandAndWait version cmd args err success w).2 in
    trace w' = trace w ++ [TrackCommandAsync call;
                           Waited (5 * Time.Second) (hd false (signals w))] /\
    signals w' = tl (signals w) /\
    callArgs call `sublist_of` args /\
    Forall (fun arg => arg ∉ helpTokens) (callArgs call) /\
    Time.minDuration <= callDuration call <= Time.maxDuration.
Proof.
  intros Hrel.
  destruct (trackCommandAndWait_released version cmd args err success w Hrel)
    as (duration & w' & Hrun & Htrace & Hsignals & _ & Hbounds).
  exists duration. rewrite Hrun. simpl.
  repeat split; try assumption; try apply Hbounds.
  - rewrite filterArgs_filter. apply sublist_filter.
  - rewrite filterArgs_filter. unfold withoutHelpTokens.
    apply Forall_forall. intros arg Hin.
    apply list_elem_of_filter in Hin. tauto.
Qed.

Lemma trackCommandAndWait_effects_witness :
  exists duration,
    trace (trackCommandAndWait "0.1.0" projectCmd ["myapp"; "--help"] None true world0).2
    = [TrackCommandAsync (callOf "0.1.0" projectCmd ["myapp"; "--help"] None true duration);
       Waited (5 * Time.Second) true].
Proof.
  destruct (trackCommandAndWait_effects "0.1.0" projectCmd ["myapp"; "--help"]
              None true world0) as (duration & Htrace & _); [discriminate|].
  exists duration. exact Htrace.
Defined.

(** X10: in a released build a sequence of calls hands over one event per
    call, in the order of the calls, each with the success flag, the error, the
    filtered arguments and the path of its own call: no event is dropped,
    repeated or sent again. *)
Theorem trackAll_dispatches_each (version : string)
    (calls : list (Command * list string * option error * bool)) (w : World) :
  version <> "dev" ->
  exists sent,
    dispatched (trace (trackAll version calls w).2) = dispatched (trace w) ++ sent /\
    Forall2
      (fun call c =>
         callPath call = buildCommandPath (Some c.1.1.1) /\
         callArgs call = filterArgs c.1.1.2 /\
         callErr call = c.1.2 /\
         callSuccess call = c.2)
      sent calls.
Proof.
  intros Hrel. revert w.
  induction calls as [|[[[cmd args] err] success] rest IH]; intros w.
  - exists []. simpl. rewrite app_nil_r. split; [reflexivity | constructor].
  - destruct (trackCommandAndWait_released version cmd args err success w Hrel)
      as (duration & w1 & Hrun & Htrace & _).
    cbn [trackAll]. unfold bind at 1. rewrite Hrun.
    destruct (IH w1) as (sent & Hsent & Hall).
    exists (callOf version cmd args err success duration :: sent).
    split.
    + rewrite Hsent, Htrace, dispatched_app. simpl.
      rewrite <- app_assoc. reflexivity.
    + constructor; [|exact Hall]. simpl. auto.
Qed.

Lemma trackAll_dispatches_each_witness :
  exists sent,
    dispatched (trace (trackAll "0.1.0"
                         [(projectCmd, ["myapp"], None, true);
                          (createCmd, ["--help"], Some "disk full", false)]
                         world0).2)
    = sent /\ callSuccess <$> sent = [true; false].
Proof.
  destruct (trackAll_dispatches_each "0.1.0"
              [(projectCmd, ["myapp"], None, true);
               (createCmd, ["--help"], Some "disk full", false)] world0)
    as (sent & Hsent & Hall); [discriminate|].
  exists sent. split; [exact Hsent|].
  inversion Hall as [|c1 k1 s1 r1 (_ & _ & _ & H1) Hrest]; subst.
  inversion Hrest as [|c2 k2 s2 r2 (_ & _ & _ & H2) Hnil]; subst.
  inversion Hnil; subst. simpl in *. now rewrite H1, H2.
Defined.

(** ** More on the hooks *)

Lemma Key_eqb_eq a b : Ctx.Key_eqb a b = true <-> a = b.
Proof.
  destruct a as [s|s], b as [s'|s']; simpl; rewrite ?String.eqb_eq;
    split; intros H; try discriminate; congruence.
Qed.

Lemma walkUp_SetContext cmd ctx parts :
  walkUp (SetContext cmd ctx) parts = walkUp cmd parts.
Proof. destruct cmd as [use [parent|] fl c]; reflexivity. Qed.

(** X11: the pre-run hook changes the context of the command and nothing
    else.  The path and the collected flags are what they were, every value
    stored under another key is still found, the clock reading it took is
    stored under the start-time key, and no effect is produced. *)
Theorem PersistentPreRun_preserves (cmd : Command) (args : list string) (w : World) :
  let cmd' := (PersistentPreRun cmd args w).1 in
  let w' := (PersistentPreRun cmd args w).2 in
  buildCommandPath (Some cmd') = buildCommandPath (Some cmd) /\
  collectFlags cmd' = collectFlags cmd /\
  (forall key, key <> startTimeKey ->
     Ctx.Value (Context cmd') key = Ctx.Value (Context cmd) key) /\
  Ctx.Value (Context cmd') startTimeKey = Some (Ctx.AnyTime (clock w')) /\
  trace w' = trace w /\ signals w' = signals w.
Proof.
  unfold PersistentPreRun, bind, timeNow, ret. cbn [fst snd].
  split; [|split; [|split; [|split; [|split]]]]; try reflexivity.
  - unfold buildCommandPath. now rewrite walkUp_SetContext.
  - intros key Hkey.
    cbn [SetContext Context Ctx.WithValue Ctx.Value].
    destruct (Ctx.Key_eqb startTimeKey key) eqn:Heq; [|reflexivity].
    apply Key_eqb_eq in Heq. congruence.
Qed.

Lemma PersistentPreRun_preserves_witness :
  Ctx.Value
    (Context (PersistentPreRun
                (SetContext projectCmd [(Ctx.foreignKey "start_time", Ctx.AnyString "t")])
                [] world0).1)
    (Ctx.foreignKey "start_time")
  = Some (Ctx.AnyString "t").
Proof.
  destruct (PersistentPreRun_preserves
              (SetContext projectCmd [(Ctx.foreignKey "start_time", Ctx.AnyString "t")])
              [] world0) as (_ & _ & Hother & _).
  rewrite Hother; [reflexivity | discriminate].
Defined.

(** X12: the post-run hook never returns an error, in any build and
    whatever the wait's verdict.  In a released build, run on the command the
    pre-run hook returned, at any later moment, it hands over one event,
    successful and without error text, whose duration is the time from the
    pre-run reading to its own reading: not negative, and exact when it fits
    an int64. *)
Theorem hooks_report_elapsed_time :
  (forall version cmd args w, (PersistentPostRunE version cmd args w).1 = None) /\
  (forall version cmd args args' w later,
     version <> "dev" ->
     let cmd' := (PersistentPreRun cmd args w).1 in
     let started := clock (PersistentPreRun cmd args w).2 in
     let now := clock later + Z.of_N (hd 0%N (ticks later)) in
     started <= clock later ->
     dispatched (trace (PersistentPostRunE version cmd' args' later).2)
     = dispatched (trace later)
       ++ [callOf version cmd' args' None true (Time.Sub now started)] /\
     0 <= Time.Sub now started /\
     (now - started <= Time.maxDuration -> Time.Sub now started = now - started)).
Proof.
  split.
  - intros version cmd args w. unfold PersistentPostRunE, bind.
    destruct (trackCommandAndWait version cmd args None true w). reflexivity.
  - intros version cmd args args' w later Hrel cmd' started now Hlater.
    assert (Hstart : Ctx.assertTime (Ctx.Value (Context cmd') startTimeKey)
                     = Some started) by reflexivity.
    split; [|split].
    + unfold PersistentPostRunE, bind at 1.
      rewrite (trackCommandAndWait_success_recorded version Hrel cmd' args' None
                 later started Hstart).
      unfold ret. simpl. rewrite dispatched_app. reflexivity.
    + apply Sub_nonneg. unfold now. lia.
    + intros Hfits. unfold Time.Sub, Time.minDuration in *.
      destruct (Z.ltb_spec (now - started) (- 2 ^ 63)); [unfold now in *; lia|].
      destruct (Z.ltb_spec Time.maxDuration (now - started)); [lia | reflexivity].
Qed.

Lemma hooks_report_elapsed_time_witness :
  dispatched (trace (PersistentPostRunE "0.1.0"
                       (PersistentPreRun projectCmd ["myapp"] world0).1 ["myapp"]
                       (PersistentPreRun projectCmd ["myapp"] world0).2).2)
  = [callOf "0.1.0" (PersistentPreRun projectCmd ["myapp"] world0).1 ["myapp"]
       None true 7].
Proof.
  destruct hooks_report_elapsed_time as (_ & Helapsed).
  destruct (Helapsed "0.1.0" projectCmd ["myapp"] ["myapp"] world0
              (PersistentPreRun projectCmd ["myapp"] world0).2) as (Hsent & _).
  - discriminate.
  - simpl. lia.
  - exact Hsent.
Defined.

(** ** More on main *)

(** main once [Execute] has returned. *)
Lemma main_after_Execute version Logo rootFlags rootCtx Find Execute osArgs w :
  main version Logo rootFlags rootCtx Find Execute osArgs w =
    let (cmdErr, w1) := Execute (printLogo Logo osArgs w).2 in
    match cmdErr with
    | Some e =>
        let executedCmd := match Find osArgs with
                           | Some found => found
                           | None => rootCmd rootFlags rootCtx
                           end in
        os_Exit 1
          (trackCommandAndWait version executedCmd osArgs (Some e) false
             (Fprintf_Stderr ("Error: " ++ e ++ nl)%string w1).2).2
    | None => (tt, w1)
    end.
Proof.
  unfold main, bind at 1 2.
  destruct (printLogo Logo osArgs w) as [u w0]. simpl.
  destruct (Execute w0) as [[e|] w1]; [|reflexivity].
  unfold bind, Fprintf_Stderr, emit. cbn [snd].
  destruct (trackCommandAndWait version _ osArgs (Some e) false _) as [u2 w3].
  reflexivity.
Qed.

(** X13: the exit status follows the result of [Execute].  When [Execute]
    returns nil main adds nothing to the effects and returns; when it returns
    an error the effects main adds begin with a line on the standard error
    stream and end with the exit; and main never exits with another status
    than 1. *)
Theorem main_exit_status (version Logo : string) (rootFlags : Pflag.FlagSet)
    (rootCtx : Ctx.Context) (Find : list string -> option Command)
    (Execute : M (option error)) (osArgs : list string) (w : World) :
  let cmdErr := (Execute (printLogo Logo osArgs w).2).1 in
  let w1 := (Execute (printLogo Logo osArgs w).2).2 in
  exists added,
    trace (main version Logo rootFlags rootCtx Find Execute osArgs w).2
    = trace w1 ++ added /\
    (cmdErr = None <-> added = []) /\
    (forall e, cmdErr = Some e ->
       head added = Some (Stderr ("Error: " ++ e ++ nl)%string) /\
       last added = Some (Exit 1)) /\
    (forall code, Exit code ∈ added -> code = 1 /\ cmdErr <> None).
Proof.
  intros cmdErr w1. rewrite main_after_Execute. subst cmdErr w1.
  destruct (Execute (printLogo Logo osArgs w).2) as [[e|] w1]; cbn [fst snd].
  - set (executedCmd := match Find osArgs with
                        | Some found => found
                        | None => rootCmd rootFlags rootCtx
                        end).
    assert (Hshape : exists sent,
               trace (os_Exit 1
                        (trackCommandAndWait version executedCmd osArgs (Some e) false
                           (Fprintf_Stderr ("Error: " ++ e ++ nl)%string w1).2).2).2
               = trace w1 ++ Stderr ("Error: " ++ e ++ nl)%string :: sent ++ [Exit 1]
               /\ Forall (fun eff => forall code, eff <> Exit code) sent).
    { destruct (String.eqb version "dev") eqn:Hv.
      - exists []. unfold trackCommandAndWait. rewrite Hv. simpl.
        rewrite <- app_assoc. split; [reflexivity | constructor].
      - apply String.eqb_neq in Hv.
        rewrite (trackCommandAndWait_failure version Hv). simpl.
        eexists [_; _]. rewrite <- !app_assoc. split; [reflexivity|].
        repeat constructor; discriminate. }
    destruct Hshape as (sent & Htrace & Hsent).
    exists (Stderr ("Error: " ++ e ++ nl)%string :: sent ++ [Exit 1]).
    split; [exact Htrace|]. split; [split; discriminate|]. split.
    + intros e' He'. injection He' as <-. split; [reflexivity|].
      change (last ((Stderr ("Error: " ++ e ++ nl)%string :: sent) ++ [Exit 1])
              = Some (Exit 1)).
      apply last_snoc.
    + intros code Hin. split; [|discriminate].
      apply elem_of_cons in Hin as [Hin|Hin]; [discriminate|].
      apply elem_of_app in Hin as [Hin|Hin].
      * rewrite Forall_forall in Hsent. now destruct (Hsent _ Hin code).
      * apply list_elem_of_singleton in Hin. congruence.
  - exists []. rewrite app_nil_r. split; [reflexivity|].
    split; [split; reflexivity|]. split.
    + intros e He. discriminate.
    + intros code Hin. apply elem_of_nil in Hin. contradiction.
Qed.

Lemma main_exit_status_witness :
  exists added,
    trace (main "dev" "logo" ∅ [] (fun _ => None) (ret (Some "disk full"))
             ["create"] world0).2
    = [Stdout "logo"] ++ added /\ last added = Some (Exit 1).
Proof.
  destruct (main_exit_status "dev" "logo" ∅ [] (fun _ => None)
              (ret (Some "disk full")) ["create"] world0)
    as (added & Htrace & _ & Herr & _).
  exists added. split; [exact Htrace|].
  apply (Herr "disk full"). reflexivity.
Defined.

(** X14: when the failed command line does not resolve to a command, the
    failure is reported for the root: the event's path is "root", its flags
    are the flags set on the root, its arguments are the whole command line
    after the program name without the help tokens, and it carries the error
    text and the zero duration. *)
Theorem main_failure_unresolved_command (version Logo : string)
    (rootFlags : Pflag.FlagSet) (rootCtx : Ctx.Context)
    (Find : list string -> option Command) (Execute : M (option error))
    (osArgs : list string) (w w1 : World) (e : error) :
  version <> "dev" ->
  Execute (printLogo Logo osArgs w).2 = (Some e, w1) ->
  Find osArgs = None ->
  dispatched (trace (main version Logo rootFlags rootCtx Find Execute osArgs w).2)
  = dispatched (trace w1)
    ++ [mkTrackCall "root" (filterArgs osArgs)
          (collectFlags (rootCmd rootFlags rootCtx)) false (Some e) 0 version].
Proof.
  intros Hrel Hexec Hfind. rewrite main_after_Execute, Hexec.
  cbv beta iota zeta. rewrite Hfind.
  rewrite (trackCommandAndWait_failure version Hrel). simpl.
  rewrite !dispatched_app. simpl. rewrite ?app_nil_r. reflexivity.
Qed.

Lemma main_failure_unresolved_command_witness :
  callPath <$> dispatched
    (trace (main "0.1.0" "logo" ∅ [] (fun _ => None) (ret (Some "unknown command"))
              ["frobnicate"; "--help"] world0).2)
  = ["root"].
Proof.
  rewrite (main_failure_unresolved_command "0.1.0" "logo" ∅ [] (fun _ => None)
             (ret (Some "unknown command")) ["frobnicate"; "--help"] world0
             (printLogo "logo" ["frobnicate"; "--help"] world0).2 "unknown command").
  - reflexivity.
  - discriminate.
  - reflexivity.
  - reflexivity.
Defined.

(** ** One process run *)

Lemma dispatched_printLogo Logo osArgs w :
  dispatched (trace (printLogo Logo osArgs w).2) = dispatched (trace w).
Proof.
  unfold printLogo. destruct osArgs as [|first rest]; [reflexivity|].
  destruct (negb (String.eqb first "--help") && negb (String.eqb first "-h"));
    [|reflexivity].
  unfold Println, emit. simpl. rewrite dispatched_app. simpl. apply app_nil_r.
Qed.

(** The telemetry calls of main's failure branch. *)
Lemma failure_branch_dispatched version executedCmd osArgs e w1 :
  dispatched
    (trace (os_Exit 1
              (trackCommandAndWait version executedCmd osArgs (Some e) false
                 (Fprintf_Stderr ("Error: " ++ e ++ nl)%string w1).2).2).2)
  = dispatched (trace w1)
    ++ (if String.eqb version "dev" then []
        else [callOf version executedCmd osArgs (Some e) false 0]).
Proof.
  destruct (String.eqb version "dev") eqn:Hv.
  - unfold trackCommandAndWait. rewrite Hv. simpl.
    rewrite !dispatched_app. simpl. now rewrite !app_nil_r.
  - apply String.eqb_neq in Hv.
    rewrite (trackCommandAndWait_failure version Hv). simpl.
    rewrite !dispatched_app. simpl. now rewrite !app_nil_r.
Qed.

(** [runCommand] step by step. *)
Lemma runCommand_result version action cmd args w :
  runCommand version action cmd args w =
    let started := PersistentPreRun cmd args w in
    let ran := action started.1 args started.2 in
    match ran.1 with
    | Some e => (Some e, ran.2)
    | None => (None, (trackCommandAndWait version started.1 args None true ran.2).2)
    end.
Proof.
  unfold runCommand, bind at 1 2.
  destruct (PersistentPreRun cmd args w) as [cmd' w']. cbn [fst snd].
  destruct (action cmd' args w') as [[e|] w'']; cbn [fst snd]; [reflexivity|].
  unfold PersistentPostRunE, bind, ret.
  destruct (trackCommandAndWait version cmd' args None true w''). reflexivity.
Qed.

(** X15: a process run in which cobra executes a command through the hooks
    of the root reports once.  Provided the command's own action makes no
    telemetry call, a development build makes none at all, and a released
    build makes exactly one: with success=true, the command's path and its
    filtered arguments when the action returned nil; with success=false, the
    error text, the zero duration and the filtered command line when it
    returned an error.  No run reports both. *)
Theorem runProcess_reports_once (version Logo : string) (rootFlags : Pflag.FlagSet)
    (rootCtx : Ctx.Context) (Find : list string -> option Command)
    (action : Command -> list string -> M (option error))
    (cmd : Command) (args osArgs : list string) (w : World) :
  (forall c a w0, dispatched (trace (action c a w0).2) = dispatched (trace w0)) ->
  let started := PersistentPreRun cmd args (printLogo Logo osArgs w).2 in
  let outcome := (action started.1 args started.2).1 in
  let final :=
    (runProcess version Logo rootFlags rootCtx Find action cmd args osArgs w).2 in
  (version = "dev" -> dispatched (trace final) = dispatched (trace w)) /\
  (version <> "dev" ->
   exists call,
     dispatched (trace final) = dispatched (trace w) ++ [call] /\
     callErr call = outcome /\
     callSuccess call = match outcome with Some _ => false | None => true end /\
     (outcome = None ->
        callPath call = buildCommandPath (Some cmd) /\
        callArgs call = filterArgs args) /\
     (outcome <> None ->
        callArgs call = filterArgs osArgs /\ callDuration call = 0)).
Proof.
  intros Hquiet. cbv zeta. unfold runProcess.
  rewrite main_after_Execute, runCommand_result. cbv zeta.
  set (started := PersistentPreRun cmd args (printLogo Logo osArgs w).2).
  set (ran := action started.1 args started.2).
  assert (Hbefore : dispatched (trace ran.2) = dispatched (trace w)).
  { subst ran. rewrite Hquiet. subst started.
    unfold PersistentPreRun, bind, timeNow, ret.
    cbn [fst snd trace]. apply dispatched_printLogo. }
  assert (Hpath : buildCommandPath (Some started.1) = buildCommandPath (Some cmd)).
  { subst started. unfold PersistentPreRun, bind, timeNow, ret. cbn [fst].
    unfold buildCommandPath. now rewrite walkUp_SetContext. }
  clearbody ran. clearbody started.
  destruct ran as [[e|] w1]; cbn [fst snd] in *.
  - rewrite failure_branch_dispatched, Hbefore. split.
    + intros ->. apply app_nil_r.
    + intros Hrel. apply String.eqb_neq in Hrel. rewrite Hrel.
      eexists. split; [reflexivity|]. simpl.
      repeat split; try reflexivity; discriminate.
  - split.
    + intros ->. unfold trackCommandAndWait. simpl. exact Hbefore.
    + intros Hrel.
      destruct (trackCommandAndWait_released version started.1 args None true
                  w1 Hrel) as (duration & w' & Hrun & Htrace & _).
      rewrite Hrun. cbn [snd]. rewrite Htrace, dispatched_app, Hbefore.
      eexists. split; [reflexivity|]. simpl.
      repeat split; try reflexivity; try congruence.
Qed.

Lemma runProcess_reports_once_witness :
  exists call,
    dispatched (trace (runProcess "0.1.0" "logo" ∅ [] (fun _ => Some versionCmd)
                         (asRunE (versionCmd_Run "0.1.0")) versionCmd []
                         ["version"] world0).2)
    = [call] /\ callSuccess call = true /\ callPath call = "version".
Proof.
  destruct (runProcess_reports_once "0.1.0" "logo" ∅ [] (fun _ => Some versionCmd)
              (asRunE (versionCmd_Run "0.1.0")) versionCmd [] ["version"] world0)
    as (_ & Hreleased).
  - intros c a w0. unfold asRunE, versionCmd_Run, bind, Println, emit, ret. simpl.
    rewrite dispatched_app. simpl. apply app_nil_r.
  - destruct Hreleased as (call & Hsent & _ & Hsuccess & Hnil & _); [discriminate|].
    exists call. split; [exact Hsent|]. split; [exact Hsuccess|].
    apply Hnil. reflexivity.
Defined.

Lemma stdoutLines_app tr1 tr2 :
  stdoutLines (tr1 ++ tr2) = stdoutLines tr1 ++ stdoutLines tr2.
Proof.
  induction tr1 as [|e tr1 IH]; [reflexivity|].
  destruct e; simpl; rewrite IH; reflexivity.
Qed.

Lemma stdoutLines_trackCommandAndWait version cmd args err success w :
  stdoutLines (trace (trackCommandAndWait version cmd args err success w).2)
  = stdoutLines (trace w).
Proof.
  destruct (String.eqb version "dev") eqn:Hv.
  - unfold trackCommandAndWait. rewrite Hv. reflexivity.
  - apply String.eqb_neq in Hv.
    destruct (trackCommandAndWait_released version cmd args err success w Hv)
      as (duration & w' & Hrun & Htrace & _).
    rewrite Hrun. cbn [snd]. rewrite Htrace, stdoutLines_app. simpl.
    apply app_nil_r.
Qed.

(** X16: what the two commands of main.go print when they run through the
    hooks.  A bare invocation prints the logo once, from the root's own
    action and not from main, followed by the welcome text; the invocation
    with the argument version prints the logo, from main, and the version
    line.  Telemetry adds nothing to the standard output in either build. *)
Theorem runProcess_root_and_version_output (version Logo : string)
    (rootFlags : Pflag.FlagSet) (rootCtx : Ctx.Context)
    (Find : list string -> option Command) (w : World) :
  stdoutLines
    (trace (runProcess version Logo rootFlags rootCtx Find
              (asRunE (rootCmd_Run Logo)) (rootCmd rootFlags rootCtx) [] [] w).2)
  = stdoutLines (trace w)
    ++ [Logo; ""; "Welcome to Acontext CLI!"; ""; "Quick Commands:";
        "  acontext create     Create a new project";
        "  acontext docker     Manage Docker services (up/down/status/logs/env)";
        "  acontext version    Show version information";
        "  acontext help       Show help information";
        ""; "Get started: acontext create"] /\
  stdoutLines
    (trace (runProcess version Logo rootFlags rootCtx Find
              (asRunE (versionCmd_Run version)) versionCmd [] ["version"] w).2)
  = stdoutLines (trace w) ++ [Logo; ("Acontext CLI version " ++ version)%string].
Proof.
  unfold runProcess. rewrite !main_after_Execute, !runCommand_result.
  split.
  - cbn [printLogo ret snd fst asRunE rootCmd_Run bind Println emit
         PersistentPreRun timeNow trace].
    rewrite stdoutLines_trackCommandAndWait. cbn [trace].
    rewrite <- !app_assoc, stdoutLines_app. reflexivity.
  - cbn -[trackCommandAndWait String.append].
    rewrite stdoutLines_trackCommandAndWait. cbn [trace].
    rewrite <- !app_assoc, stdoutLines_app. reflexivity.
Qed.

(** ** The start time in the context *)

Lemma Value_absent ctx key :
  Forall (fun kv : Ctx.Key * Ctx.Any => kv.1 <> key) ctx -> Ctx.Value ctx key = None.
Proof.
  intros Hall. induction Hall as [|[k v] ctx Hk _ IH]; [reflexivity|].
  simpl in *. destruct (Ctx.Key_eqb k key) eqn:Heq; [|exact IH].
  apply Key_eqb_eq in Heq. contradiction.
Qed.

(** X17: which start time a successful call uses is decided by the
    innermost value stored under main's own start-time key.  When no value is
    stored under that key, or when the innermost one is not a time, the call
    falls back to two clock readings of its own; when it is a time, the
    duration runs from that time, whatever lies below it in the context. *)
Theorem trackCommandAndWait_start_time_lookup (version : string) (cmd : Command)
    (args : list string) (err : option error) (w : World) :
  version <> "dev" ->
  let first := clock w + Z.of_N (hd 0%N (ticks w)) in
  let second := first + Z.of_N (hd 0%N (tl (ticks w))) in
  (Forall (fun kv => kv.1 <> startTimeKey) (Context cmd) ->
     durationSent version cmd args err true w = [Time.Sub second first]) /\
  (forall text below,
     Context cmd = (startTimeKey, Ctx.AnyString text) :: below ->
     durationSent version cmd args err true w = [Time.Sub second first]) /\
  (forall started below,
     Context cmd = (startTimeKey, Ctx.AnyTime started) :: below ->
     durationSent version cmd args err true w = [Time.Sub first started]).
Proof.
  intros Hrel first second. unfold durationSent. split; [|split].
  - intros Habsent.
    assert (Hstart : Ctx.assertTime (Ctx.Value (Context cmd) startTimeKey) = None)
      by now rewrite Value_absent.
    rewrite (trackCommandAndWait_success_fallback version Hrel cmd args err w Hstart).
    simpl. rewrite dispatched_app, drop_app_length. reflexivity.
  - intros text below Hctx.
    assert (Hstart : Ctx.assertTime (Ctx.Value (Context cmd) startTimeKey) = None)
      by now rewrite Hctx.
    rewrite (trackCommandAndWait_success_fallback version Hrel cmd args err w Hstart).
    simpl. rewrite dispatched_app, drop_app_length. reflexivity.
  - intros started below Hctx.
    assert (Hstart : Ctx.assertTime (Ctx.Value (Context cmd) startTimeKey)
                     = Some started) by now rewrite Hctx.
    rewrite (trackCommandAndWait_success_recorded version Hrel cmd args err w
               started Hstart).
    simpl. rewrite dispatched_app, drop_app_length. reflexivity.
Qed.

Lemma trackCommandAndWait_start_time_lookup_witness :
  durationSent "0.1.0"
    (SetContext projectCmd [(Ctx.foreignKey "start_time", Ctx.AnyTime 101)])
    [] None true world0 = [7] /\
  durationSent "0.1.0"
    (SetContext projectCmd
       [(startTimeKey, Ctx.AnyString "soon"); (startTimeKey, Ctx.AnyTime 101)])
    [] None true world0 = [7] /\
  durationSent "0.1.0"
    (SetContext projectCmd
       [(startTimeKey, Ctx.AnyTime 101); (startTimeKey, Ctx.AnyTime 90)])
    [] None true world0 = [4].
Proof.
  split; [|split].
  - destruct (trackCommandAndWait_start_time_lookup "0.1.0"
                (SetContext projectCmd [(Ctx.foreignKey "start_time", Ctx.AnyTime 101)])
                [] None world0) as (Habsent & _); [discriminate|].
    apply Habsent. repeat constructor. discriminate.
  - destruct (trackCommandAndWait_start_time_lookup "0.1.0"
                (SetContext projectCmd
                   [(startTimeKey, Ctx.AnyString "soon"); (startTimeKey, Ctx.AnyTime 101)])
                [] None world0) as (_ & Hother & _); [discriminate|].
    apply (Hother "soon" [(startTimeKey, Ctx.AnyTime 101)]). reflexivity.
  - destruct (trackCommandAndWait_start_time_lookup "0.1.0"
                (SetContext projectCmd
                   [(startTimeKey, Ctx.AnyTime 101); (startTimeKey, Ctx.AnyTime 90)])
                [] None world0) as (_ & _ & Htime); [discriminate|].
    apply (Htime 101 [(startTimeKey, Ctx.AnyTime 90)]). reflexivity.
Defined.
